(** * Grid search for roots in [scipy_solving.py]

    The script [demo_16_Solving_Equations/scipy_solving.py] approximates a
    root of a scalar function by evaluating it over a NumPy grid and taking
    the grid point whose value has the least magnitude (lines 78-129).
    This development embeds that computation over IEEE binary64 numbers, the
    element type of the arrays the script builds, and settles the properties
    stated about it. *)

From Stdlib Require Import ZArith List Lia Bool.
From Stdlib Require Import Floats.
Import ListNotations.

Set Warnings "-inexact-float".

(** ** Python exceptions and results *)

(** The exceptions the grid search can end in.  None of them is defined by
    the script: they come from [np.arange], [ndarray.argmin] and indexing. *)
Inductive exn : Type :=
  | ValueError
  | ZeroDivisionError
  | OverflowError
  | IndexError
  | NameError.

Inductive result (A : Type) : Type :=
  | Ok (a : A)
  | Raise (e : exn).
Arguments Ok {A} a.
Arguments Raise {A} e.

Definition bind {A B : Type} (r : result A) (k : A -> result B) : result B :=
  match r with
  | Ok a => k a
  | Raise e => Raise e
  end.

Notation "x <- r ;; k" := (bind r (fun x => k))
  (at level 61, r at next level, right associativity).

Definition result_map {A B : Type} (f : A -> B) (r : result A) : result B :=
  match r with
  | Ok a => Ok (f a)
  | Raise e => Raise e
  end.

(** ** Double precision scalars *)

Module F64.
Open Scope float_scope.

(** Least integer not below / greatest integer not above [m * 2^e]. *)
Definition floor_scaled (m e : Z) : Z :=
  match e with
  | Zneg p => Z.div m (Z.pow_pos 2 p)
  | _ => m * 2 ^ e
  end.

Definition ceil_scaled (m e : Z) : Z := Z.opp (floor_scaled (Z.opp m) e).

(** [ceil] of a double as an integer; [None] for NaN and the infinities. *)
Definition ceil (x : float) : option Z :=
  match Prim2SF x with
  | S754_zero _ => Some 0%Z
  | S754_finite s m e => Some (ceil_scaled (if s then Zneg m else Zpos m) e)
  | S754_infinity _ | S754_nan => None
  end.


(** C's [(double) i] for an index [0 <= i < 2^63]. *)
Definition of_index (i : nat) : float := of_uint63 (Uint63.of_Z (Z.of_nat i)).


Definition is_zero (x : float) : bool := x =? 0.
Definition signbit (x : float) : bool := get_sign x.
End F64.

(** ** The NumPy operations the script calls *)

Module Np.
Open Scope float_scope.

Definition intp_min : Z := (- 2 ^ 63)%Z.
Definition intp_max : Z := (2 ^ 63 - 1)%Z.

(** [_arange_safe_ceil_to_intp]: the length as an index, or the error
    NumPy raises when the quotient is NaN or out of the index range.  (At
    the quotient [2^63] exactly the conversion to an index is undefined in
    C; it is taken here as out of range.) *)
Definition safe_ceil_to_intp (value : float) : result Z :=
  if is_nan value then Raise ValueError
  else match F64.ceil value with
       | Some n =>
           if (intp_min <=? n)%Z && (n <=? intp_max)%Z then Ok n
           else Raise OverflowError
       | None => Raise OverflowError
       end.

(** [_calc_length]: [ceil ((stop - start) / step)], with Python's float
    division raising on a zero step, and the underflow correction. *)
Definition calc_length (start stop step : float) : result Z :=
  let next := stop - start in
  if F64.is_zero step then Raise ZeroDivisionError
  else
    let val := next / step in
    len <- safe_ceil_to_intp val ;;
    if F64.is_zero val && negb (F64.is_zero next)
    then Ok (if F64.signbit val then 0%Z else 1%Z)
    else Ok len.

(** [DOUBLE_fill]: the buffer holds [start] and [start + step]; every
    later slot [i] receives [start + i * delta], with [delta] the
    difference of the first two slots.  The product and the sum are rounded
    one after the other, as on builds that do not fuse them. *)
Definition fill (first second : float) (n : nat) : list float :=
  let delta := second - first in
  map (fun i => match i with
                | O => first
                | S O => second
                | _ => first + F64.of_index i * delta
                end) (seq 0 n).

(** [np.arange(start, stop, step)] on doubles; the script's integer bounds
    are exact doubles.  Storage is not modelled: a grid of any length in the
    index range is built. *)
Definition arange (start stop step : float) : result (list float) :=
  len <- calc_length start stop step ;;
  Ok (fill start (start + step) (Z.to_nat len)).

(** [abs(a)] on an array. *)
Definition absolute (a : list float) : list float := map abs a.

(** [DOUBLE_argmin]'s loop over the slots after the first: [mp] is the
    least value met so far and [min_ind] its index.  The slot replaces
    [mp] when [ip[i] >= mp] fails, which a smaller value and a NaN both make
    it do; a NaN is taken as minimal and ends the scan. *)
Fixpoint argmin_loop (ip : list float) (i : nat) (mp : float) (min_ind : nat)
  : nat :=
  match ip with
  | [] => min_ind
  | x :: rest =>
      if negb (mp <=? x)
      then if is_nan x then i else argmin_loop rest (S i) x i
      else argmin_loop rest (S i) mp min_ind
  end.

(** [a.argmin()]; NumPy refuses an empty array. *)
Definition argmin (a : list float) : result nat :=
  match a with
  | [] => Raise ValueError
  | mp :: rest =>
      if is_nan mp then Ok 0%nat else Ok (argmin_loop rest 1 mp 0)
  end.

(** [a[i]] for a non-negative index. *)
Definition getitem (a : list float) (i : nat) : result float :=
  match nth_error a i with
  | Some x => Ok x
  | None => Raise IndexError
  end.
End Np.

(** ** The script *)

Open Scope float_scope.

(** [quad_fn], lines 78-81; on an array NumPy evaluates [x**2] as the
    square [x * x]. *)
Definition quad_fn (x a b c : float) : float := a * (x * x) + b * x + c.

Definition a : float := 1 / 4.
Definition b : float := 1.
Definition c : float := -1.

(** *** The grid search with its inputs as parameters *)

(** Lines 89 and 111-118 for a function [f] and a grid: the table of values,
    its magnitudes, the index of the least one, the grid point there and the
    value of [f] at that point. *)
Definition select_root (f : float -> float) (x_grid : list float)
  : result (float * float * nat) :=
  let f_grid := map f x_grid in
  let abs_f_grid := Np.absolute f_grid in
  x_root_index <- Np.argmin abs_f_grid ;;
  x_root <- Np.getitem x_grid x_root_index ;;
  Ok (x_root, f x_root, x_root_index).

(** Lines 88-118 with the function and the grid bounds as parameters. *)
Definition find_root_by_grid (f : float -> float) (start stop step : float)
  : result (float * float * nat) :=
  x_grid <- Np.arange start stop step ;;
  select_root f x_grid.

(** *** The statements of the script, over its module variables *)

Module Script.

(** The names the grid search binds, unbound at the start, and what the
    script has printed. *)
Record globals : Type := {
  x_grid : option (list float);
  f_grid : option (list float);
  abs_f_grid : option (list float);
  x_root_index : option nat;
  x_root_1 : option float;
  x_root_2 : option float;
  stdout : list float
}.

Definition initial : globals :=
  {| x_grid := None; f_grid := None; abs_f_grid := None;
     x_root_index := None; x_root_1 := None; x_root_2 := None;
     stdout := [] |}.

(** The module variables once [x_grid] and [f_grid] are bound, as they are
    after lines 88-89 and after lines 122-123. *)
Definition with_tables (xs fs : list float) : globals :=
  {| x_grid := Some xs; f_grid := Some fs; abs_f_grid := None;
     x_root_index := None; x_root_1 := None; x_root_2 := None;
     stdout := [] |}.

(** Reading a name; Python raises [NameError] on an unbound one. *)
Definition load {A : Type} (v : option A) : result A :=
  match v with
  | Some x => Ok x
  | None => Raise NameError
  end.

Definition stmt : Type := globals -> result globals.

Definition seq_stmt (s1 s2 : stmt) : stmt := fun g => g' <- s1 g ;; s2 g'.
Infix ">>" := seq_stmt (at level 62, left associativity).

(** [x_grid = np.arange(start, stop, step)], lines 88 and 122. *)
Definition assign_x_grid (start stop step : float) : stmt := fun g =>
  v <- Np.arange start stop step ;;
  Ok {| x_grid := Some v; f_grid := f_grid g; abs_f_grid := abs_f_grid g;
        x_root_index := x_root_index g; x_root_1 := x_root_1 g;
        x_root_2 := x_root_2 g; stdout := stdout g |}.

(** [f_grid = quad_fn(x_grid, a, b, c)], lines 89 and 123. *)
Definition assign_f_grid : stmt := fun g =>
  xs <- load (x_grid g) ;;
  Ok {| x_grid := x_grid g; f_grid := Some (map (fun x => quad_fn x a b c) xs);
        abs_f_grid := abs_f_grid g;
        x_root_index := x_root_index g; x_root_1 := x_root_1 g;
        x_root_2 := x_root_2 g; stdout := stdout g |}.

(** [abs_f_grid = abs(f_grid)], line 111. *)
Definition assign_abs_f_grid : stmt := fun g =>
  fs <- load (f_grid g) ;;
  Ok {| x_grid := x_grid g; f_grid := f_grid g;
        abs_f_grid := Some (Np.absolute fs);
        x_root_index := x_root_index g; x_root_1 := x_root_1 g;
        x_root_2 := x_root_2 g; stdout := stdout g |}.

(** [x_root_index = abs_f_grid.argmin()], line 112. *)
Definition assign_x_root_index : stmt := fun g =>
  vs <- load (abs_f_grid g) ;;
  i <- Np.argmin vs ;;
  Ok {| x_grid := x_grid g; f_grid := f_grid g; abs_f_grid := abs_f_grid g;
        x_root_index := Some i; x_root_1 := x_root_1 g;
        x_root_2 := x_root_2 g; stdout := stdout g |}.

(** [x_root_1 = x_grid[x_root_index]], line 113. *)
Definition assign_x_root_1 : stmt := fun g =>
  xs <- load (x_grid g) ;;
  i <- load (x_root_index g) ;;
  x <- Np.getitem xs i ;;
  Ok {| x_grid := x_grid g; f_grid := f_grid g; abs_f_grid := abs_f_grid g;
        x_root_index := x_root_index g; x_root_1 := Some x;
        x_root_2 := x_root_2 g; stdout := stdout g |}.

(** [x_root_2 = x_grid[abs(f_grid).argmin()]], line 126.  Python evaluates
    the subscripted name first, then the subscript. *)
Definition assign_x_root_2 : stmt := fun g =>
  xs <- load (x_grid g) ;;
  fs <- load (f_grid g) ;;
  i <- Np.argmin (Np.absolute fs) ;;
  x <- Np.getitem xs i ;;
  Ok {| x_grid := x_grid g; f_grid := f_grid g; abs_f_grid := abs_f_grid g;
        x_root_index := x_root_index g; x_root_1 := x_root_1 g;
        x_root_2 := Some x; stdout := stdout g |}.

(** [print(v)] and [print(quad_fn(v, a, b, c))], lines 115-118 and
    128-129, for the name read by [sel]; on the scalar [v] too, [v**2] is
    taken as the square [v * v]. *)
Definition print_root (sel : globals -> option float) : stmt := fun g =>
  x <- load (sel g) ;;
  Ok {| x_grid := x_grid g; f_grid := f_grid g; abs_f_grid := abs_f_grid g;
        x_root_index := x_root_index g; x_root_1 := x_root_1 g;
        x_root_2 := x_root_2 g;
        stdout := stdout g ++ [x; quad_fn x a b c] |}.

(** Lines 111-113: the root in three statements. *)
Definition stepwise : stmt :=
  assign_abs_f_grid >> assign_x_root_index >> assign_x_root_1.

(** Lines 88-118, the first search. *)
Definition first_search : stmt :=
  assign_x_grid (-10) 5 0.01 >> assign_f_grid >> stepwise
    >> print_root x_root_1.

(** Lines 122-129, the search at a higher resolution. *)
Definition second_search : stmt :=
  assign_x_grid 0 1 0.0001 >> assign_f_grid >> assign_x_root_2
    >> print_root x_root_2.

(** The grid search part of the script, lines 88-129 (the plot aside). *)
Definition run : result globals := (first_search >> second_search) initial.

End Script.

(** ** Vocabulary of the statements *)

(** Classes of the numbers of the binary64 format. *)
Module SF.

Definition SFnan (x : spec_float) : bool :=
  match x with S754_nan => true | _ => false end.

Definition SFzero (x : spec_float) : bool :=
  match x with S754_zero _ => true | _ => false end.





End SF.

(** A table entry that is a number. *)
Definition number (x : float) : bool := negb (is_nan x).

(** [vals[i]] is not above any entry of [vals]. *)
Definition is_least (vals : list float) (i : nat) : bool :=
  match nth_error vals i with
  | Some v => forallb (fun x => v <=? x)%float vals
  | None => false
  end.

(** The table [abs_f_grid] the script builds from [f] and a grid. *)
Definition abs_table (f : float -> float) (grid : list float) : list float :=
  Np.absolute (map f grid).



(** The function [f(x) = x^2 - 1], with the roots [-1] and [1]. *)
Definition sq_minus_one (x : float) : float := (x * x - 1)%float.

(** ** The single-variable equation, lines 153-166 *)

Module SingleVar.

(** What [f] prints on one line: the two numbers it formats. *)
Definition line : Type := (float * float)%type.

(** A computation that prints and may raise; what it has printed stays
    printed when it raises. *)
Definition io (A : Type) : Type := list line -> result A * list line.

Definition ret {A : Type} (a : A) : io A := fun out => (Ok a, out).

Definition lift {A : Type} (r : result A) : io A := fun out => (r, out).

Definition io_bind {A B : Type} (m : io A) (k : A -> io B) : io B :=
  fun out =>
    match m out with
    | (Ok a, out') => k a out'
    | (Raise e, out') => (Raise e, out')
    end.

Notation "x <~ m ;; k" := (io_bind m (fun x => k))
  (at level 61, m at next level, right associativity).

Definition print (l : line) : io unit := fun out => (Ok tt, out ++ [l]).

(** [a[i] = v] on an array; NumPy raises [IndexError] past the end. *)
Definition setitem (a : list float) (i : nat) (v : float)
  : result (list float) :=
  if (i <? length a)%nat then Ok (firstn i a ++ v :: skipn (S i) a)
  else Raise IndexError.

Section WithMath.

(** [math.log] and [math.exp] belong to the C library; each returns a
    double or raises ([ValueError] outside the domain, [OverflowError]
    out of range). *)
Variables math_log math_exp : float -> result float.

(** Line 154: the logarithm first, then the exponential, then their
    difference. *)
Definition out_value (x : float) : result float :=
  l <- math_log x ;;
  e <- math_exp (- x) ;;
  Ok (l - e).

(** [f], lines 153-156: the value of line 154, the line printed, the
    value returned. *)
Definition f (x : float) : io float :=
  v <~ lift (out_value x) ;;
  u <~ print (x, v) ;;
  ret v.

(** The loop of lines 165-166 over the indices [range]: the right-hand
    side [f(x_grid[i])] first, then the store into [f_grid[i]]. *)
Fixpoint fill_loop (range : list nat) (x_grid f_grid : list float)
  : io (list float) :=
  match range with
  | [] => ret f_grid
  | i :: rest =>
      x <~ lift (Np.getitem x_grid i) ;;
      v <~ f x ;;
      f_grid' <~ lift (setitem f_grid i v) ;;
      fill_loop rest x_grid f_grid'
  end.

(** Lines 164-166 on a grid: the table [x_grid*0], then the loop over
    [range(0, len(x_grid))]. *)
Definition plot_table (x_grid : list float) : io (list float) :=
  let f_grid := map (fun x => x * 0) x_grid in
  fill_loop (seq 0 (length x_grid)) x_grid f_grid.

End WithMath.

End SingleVar.

(** ** The systems of equations, lines 205-279 *)

(** The unknowns are an array of doubles, as the solver passes them (the
    script's lists of small integers are exact doubles).  [x[i]] raises
    [IndexError] past the end, and [v**2] is taken as the square
    [v * v]. *)

(** [my_eqns_22], lines 205-208. *)
Definition my_eqns_22 (x : list float) : result (list float) :=
  F1 <- (x0 <- Np.getitem x 0 ;; x1 <- Np.getitem x 1 ;;
         Ok (x0 * x0 + x1 * x1 - 1)) ;;
  F2 <- (x0 <- Np.getitem x 0 ;; x1 <- Np.getitem x 1 ;;
         Ok (x0 * x0 - x1 * x1 + 0.5)) ;;
  Ok [F1; F2].

(** [my_eqns_32], lines 232-236. *)
Definition my_eqns_32 (x : list float) : result (list float) :=
  F1 <- (x0 <- Np.getitem x 0 ;; x1 <- Np.getitem x 1 ;;
         x2 <- Np.getitem x 2 ;;
         Ok (x0 + x1 + x2 * x2 - 12)) ;;
  F2 <- (x0 <- Np.getitem x 0 ;; x1 <- Np.getitem x 1 ;;
         x2 <- Np.getitem x 2 ;;
         Ok (x0 * x0 - x1 + x2 - 2)) ;;
  F3 <- (x0 <- Np.getitem x 0 ;; x1 <- Np.getitem x 1 ;;
         x2 <- Np.getitem x 2 ;;
         Ok (2 * x0 - x1 * x1 + x2 - 1)) ;;
  Ok [F1; F2; F3].

(** [my_eqns_33_p], lines 275-279. *)
Definition my_eqns_33_p (x parms : list float) : result (list float) :=
  F1 <- (x0 <- Np.getitem x 0 ;; x1 <- Np.getitem x 1 ;;
         x2 <- Np.getitem x 2 ;; p0 <- Np.getitem parms 0 ;;
         Ok (x0 + x1 + x2 * x2 - p0)) ;;
  F2 <- (x0 <- Np.getitem x 0 ;; x1 <- Np.getitem x 1 ;;
         x2 <- Np.getitem x 2 ;; p1 <- Np.getitem parms 1 ;;
         Ok (x0 * x0 - x1 + x2 - p1)) ;;
  F3 <- (x0 <- Np.getitem x 0 ;; x1 <- Np.getitem x 1 ;;
         x2 <- Np.getitem x 2 ;; p2 <- Np.getitem parms 2 ;;
         Ok (2 * x0 - x1 * x1 + x2 - p2)) ;;
  Ok [F1; F2; F3].

(** ** Vocabulary of the further statements *)

(** A double that is neither NaN nor infinite, in the format's terms. *)
Definition SFfinite (x : spec_float) : bool :=
  match x with
  | S754_zero _ | S754_finite _ _ _ => true
  | _ => false
  end.

(** Functions with the shape of [math.log] and [math.exp], to run [f] on
    examples: the tangent of the logarithm at one, refused at and below
    zero, and the tangent of the exponential at zero. *)
Definition tangent_log (x : float) : result float :=
  if (0 <? x)%float then Ok (x - 1)%float else Raise ValueError.

Definition tangent_exp (x : float) : result float := Ok (1 + x)%float.

(** Every point of the grid [coarse] is a point of the grid [fine]. *)
Definition subgrid (coarse fine : list float) : bool :=
  forallb (fun x => existsb (Leibniz.eqb x) fine) coarse.

(** The entries of [G] less those of [p], one by one. *)
Definition componentwise_sub (G p : list float) : list float :=
  map (fun gp => (fst gp - snd gp)%float) (combine G p).

(** * Properties *)

(** ** Order on doubles *)

Module F64Facts.
Import SF.
Open Scope float_scope.

Lemma SFcompare_refl (x : spec_float) :
  SFnan x = false -> SFcompare x x = Some Eq.
Proof.
  destruct x as [[]|[]| |[] m e]; simpl; try easy; intros _;
    rewrite Z.compare_refl;
    change (Pos.compare_cont Eq m m) with (Pos.compare m m);
    rewrite Pos.compare_refl; reflexivity.
Qed.

Lemma SFcompare_nan_l (x y : spec_float) :
  SFnan x = true -> SFcompare x y = None.
Proof. destruct x; try easy. Qed.

Lemma SFcompare_nan_r (x y : spec_float) :
  SFnan y = true -> SFcompare x y = None.
Proof. destruct y; try easy; destruct x; easy. Qed.

(** The case analysis behind the facts on two numbers: every pair of
    classes and signs, then the exponents and the mantissas, with the
    comparisons of [y] against [x] turned into those of [x] against [y]. *)
Ltac sf_order_cases x y :=
  unfold SFleb, SFltb, SFcompare;
  destruct x as [[]|[]| |[] mx ex], y as [[]|[]| |[] my ey]; try easy;
  change (Pos.compare_cont Eq) with Pos.compare;
  rewrite (Z.compare_antisym ex ey), (Pos.compare_antisym mx my);
  destruct (ex ?= ey)%Z; simpl; try easy;
  destruct (mx ?= my)%positive; simpl; easy.

Lemma SFleb_trans (x y z : spec_float) :
  SFleb x y = true -> SFleb y z = true -> SFleb x z = true.
Proof.
  unfold SFleb, SFcompare.
  destruct x as [[]|[]| |[] mx ex], y as [[]|[]| |[] my ey],
           z as [[]|[]| |[] mz ez]; try easy;
    change (Pos.compare_cont Eq) with Pos.compare;
    destruct (Z.compare_spec ex ey), (Z.compare_spec ey ez),
             (Z.compare_spec ex ez); try lia; try easy; subst;
    destruct (Pos.compare_spec mx my), (Pos.compare_spec my mz),
             (Pos.compare_spec mx mz); simpl; try lia; try easy.
Qed.

(** Between numbers, [x <= y] fails exactly when [y < x]. *)
Lemma SFleb_false_ltb (x y : spec_float) :
  SFnan x = false -> SFnan y = false ->
  SFleb x y = false -> SFltb y x = true.
Proof. sf_order_cases x y. Qed.

Lemma SFltb_leb (x y : spec_float) : SFltb x y = true -> SFleb x y = true.
Proof. unfold SFltb, SFleb. destruct (SFcompare x y) as [[]|]; easy. Qed.

Lemma SFltb_not_leb (x y : spec_float) :
  SFltb x y = true -> SFleb y x = false.
Proof. sf_order_cases x y. Qed.

(** *** The same facts on primitive doubles *)

Lemma is_nan_spec (x : float) : is_nan x = SFnan (Prim2SF x).
Proof.
  unfold is_nan. rewrite eqb_spec. unfold SFeqb.
  destruct (SFnan (Prim2SF x)) eqn:E.
  - rewrite SFcompare_nan_l by exact E. reflexivity.
  - rewrite SFcompare_refl by exact E. reflexivity.
Qed.

Lemma is_nan_abs (x : float) : is_nan (abs x) = is_nan x.
Proof.
  rewrite !is_nan_spec, abs_spec. destruct (Prim2SF x); reflexivity.
Qed.

Lemma leb_refl (x : float) : is_nan x = false -> (x <=? x) = true.
Proof.
  rewrite is_nan_spec, leb_spec. intros H. unfold SFleb.
  rewrite SFcompare_refl by exact H. reflexivity.
Qed.

Lemma leb_trans (x y z : float) :
  (x <=? y) = true -> (y <=? z) = true -> (x <=? z) = true.
Proof. rewrite !leb_spec. apply SFleb_trans. Qed.

Lemma leb_false_ltb (x y : float) :
  is_nan x = false -> is_nan y = false ->
  (x <=? y) = false -> (y <? x) = true.
Proof. rewrite !is_nan_spec, leb_spec, ltb_spec. apply SFleb_false_ltb. Qed.

Lemma ltb_leb (x y : float) : (x <? y) = true -> (x <=? y) = true.
Proof. rewrite leb_spec, ltb_spec. apply SFltb_leb. Qed.

Lemma ltb_not_leb (x y : float) : (x <? y) = true -> (y <=? x) = false.
Proof. rewrite leb_spec, ltb_spec. apply SFltb_not_leb. Qed.

Lemma ltb_leb_trans (x y z : float) :
  (x <? y) = true -> (y <=? z) = true -> (x <? z) = true.
Proof.
  intros Hxy Hyz.
  assert (Hn : is_nan x = false /\ is_nan z = false).
  { rewrite !is_nan_spec. rewrite ltb_spec in Hxy. rewrite leb_spec in Hyz.
    unfold SFltb in Hxy. unfold SFleb in Hyz.
    destruct (Prim2SF x), (Prim2SF y), (Prim2SF z); try easy. }
  destruct Hn as [Hx Hz].
  destruct (z <=? x) eqn:E.
  - pose proof (leb_trans _ _ _ Hyz E) as H.
    rewrite (ltb_not_leb _ _ Hxy) in H. discriminate.
  - apply leb_false_ltb; assumption.
Qed.

(** A comparison that holds has numbers on both sides. *)
Lemma leb_not_nan (x y : float) :
  (x <=? y) = true -> is_nan x = false /\ is_nan y = false.
Proof.
  rewrite !is_nan_spec, leb_spec. unfold SFleb.
  destruct (Prim2SF x), (Prim2SF y); easy.
Qed.

Lemma leb_nan_r (x y : float) : is_nan y = true -> (x <=? y) = false.
Proof.
  rewrite is_nan_spec, leb_spec. intros H. unfold SFleb.
  rewrite SFcompare_nan_r by exact H. reflexivity.
Qed.

(** *** Zero, one and the three comparisons *)


Lemma Prim2SF_zero : Prim2SF 0 = S754_zero false.
Proof. reflexivity. Qed.

Lemma is_zero_spec (x : float) : F64.is_zero x = SFzero (Prim2SF x).
Proof.
  unfold F64.is_zero. rewrite eqb_spec, Prim2SF_zero. unfold SFeqb.
  destruct (Prim2SF x) as [s|s| |s m e]; simpl; trivial;
    destruct s; reflexivity.
Qed.






End F64Facts.

(** ** Signs through rounding *)

Module RoundFacts.
Import SF F64Facts.










(** *** Valid doubles and the shift to the format exponent *)

Open Scope Z_scope.








(** *** Positive and negative numbers *)








End RoundFacts.

(** ** Signs of differences and quotients *)

Module DiffFacts.
Import SF F64Facts RoundFacts.
Open Scope Z_scope.

















End DiffFacts.

(** ** The argmin scan *)

Module ArgminFacts.
Import F64Facts.
Open Scope float_scope.
Open Scope nat_scope.

Lemma number_spec (x : float) : number x = true <-> is_nan x = false.
Proof. unfold number. destruct (is_nan x); simpl; split; congruence. Qed.

Lemma forallb_nth {A : Type} (p : A -> bool) (l : list A) :
  forallb p l = true <->
  (forall j x, nth_error l j = Some x -> p x = true).
Proof.
  rewrite forallb_forall. split; intros H.
  - intros j x Hj. apply H. eapply nth_error_In; eassumption.
  - intros x Hx. apply In_nth_error in Hx as [j Hj]. eapply H; eassumption.
Qed.

Lemma is_least_spec (vals : list float) (i : nat) :
  is_least vals i = true <->
  exists v, nth_error vals i = Some v /\
            forall j x, nth_error vals j = Some x -> (v <=? x)%float = true.
Proof.
  unfold is_least. destruct (nth_error vals i) as [v|].
  - rewrite forallb_nth. split.
    + intros H. exists v. auto.
    + intros (v' & [= <-] & H). exact H.
  - split; [discriminate | intros (v & [=] & _)].
Qed.

(** The scan never leaves the table. *)
Lemma argmin_loop_bound (rest : list float) :
  forall i mp k, k < i -> Np.argmin_loop rest i mp k < i + length rest.
Proof.
  induction rest as [|x rest IH]; intros i mp k Hk; simpl.
  - lia.
  - destruct (negb (mp <=? x)%float).
    + destruct (is_nan x).
      * lia.
      * specialize (IH (S i) x i). lia.
    + specialize (IH (S i) mp k). lia.
Qed.

Lemma argmin_bound (vals : list float) (i : nat) :
  Np.argmin vals = Ok i -> i < length vals.
Proof.
  destruct vals as [|mp rest]; simpl; [discriminate|].
  destruct (is_nan mp); intros [= <-].
  - lia.
  - pose proof (argmin_loop_bound rest 1 mp 0). lia.
Qed.

Lemma argmin_nonempty (vals : list float) :
  vals <> [] -> exists i, Np.argmin vals = Ok i.
Proof.
  destruct vals as [|mp rest]; [congruence|]. intros _. simpl.
  destruct (is_nan mp); eexists; reflexivity.
Qed.

(** On a table of numbers the scan keeps the least value of the prefix it
    has read together with the first index holding it. *)
Lemma argmin_loop_least (rest : list float) :
  forall pre mp k,
    nth_error pre k = Some mp ->
    forallb number (pre ++ rest) = true ->
    (forall j x, nth_error pre j = Some x -> (mp <=? x)%float = true) ->
    (forall j x, j < k -> nth_error pre j = Some x -> (mp <? x)%float = true) ->
    exists v,
      nth_error (pre ++ rest) (Np.argmin_loop rest (length pre) mp k)
        = Some v /\
      (forall j x, nth_error (pre ++ rest) j = Some x ->
                   (v <=? x)%float = true) /\
      (forall j x, j < Np.argmin_loop rest (length pre) mp k ->
                   nth_error (pre ++ rest) j = Some x -> (v <? x)%float = true).
Proof.
  induction rest as [|x rest IH]; intros pre mp k Hk Hnum Hle Hlt.
  - simpl. rewrite app_nil_r. exists mp. auto.
  - assert (Hkl : k < length pre).
    { apply nth_error_Some. congruence. }
    assert (Hx : is_nan x = false).
    { rewrite forallb_app in Hnum. apply andb_prop in Hnum as [_ Hnum].
      simpl in Hnum. apply andb_prop in Hnum as [Hnum _].
      apply number_spec. exact Hnum. }
    assert (Hmp : is_nan mp = false).
    { apply (leb_not_nan mp mp). eapply Hle. exact Hk. }
    assert (Happ : pre ++ x :: rest = (pre ++ [x]) ++ rest).
    { rewrite <- app_assoc. reflexivity. }
    assert (Hlen : length (pre ++ [x]) = S (length pre)).
    { rewrite length_app. simpl. lia. }
    simpl. destruct (mp <=? x)%float eqn:E; simpl.
    + (* the minimum stays *)
      rewrite Happ, <- Hlen. rewrite Happ in Hnum.
      apply IH; trivial.
      * rewrite nth_error_app1 by exact Hkl. exact Hk.
      * intros j y Hj. destruct (Nat.lt_ge_cases j (length pre)) as [L|L].
        -- rewrite nth_error_app1 in Hj by exact L. eapply Hle; eassumption.
        -- rewrite nth_error_app2 in Hj by exact L.
           destruct (j - length pre) as [|[|d]]; simpl in Hj; try discriminate.
           injection Hj as <-. exact E.
      * intros j y Hjk Hj. rewrite nth_error_app1 in Hj by lia.
        eapply Hlt; eassumption.
    + (* a new minimum at the current slot *)
      rewrite Hx.
      pose proof (leb_false_ltb _ _ Hmp Hx E) as Hxmp.
      rewrite Happ, <- Hlen. rewrite Happ in Hnum.
      apply IH; trivial.
      * rewrite nth_error_app2 by lia. rewrite Nat.sub_diag. reflexivity.
      * intros j y Hj. destruct (Nat.lt_ge_cases j (length pre)) as [L|L].
        -- rewrite nth_error_app1 in Hj by exact L.
           apply ltb_leb. eapply ltb_leb_trans; [exact Hxmp|].
           eapply Hle; eassumption.
        -- rewrite nth_error_app2 in Hj by exact L.
           destruct (j - length pre) as [|[|d]]; simpl in Hj; try discriminate.
           injection Hj as <-. apply leb_refl. exact Hx.
      * intros j y Hjk Hj. rewrite nth_error_app1 in Hj by lia.
        eapply ltb_leb_trans; [exact Hxmp|]. eapply Hle; eassumption.
Qed.

(** On a table of numbers [argmin] returns the first index of the least
    entry. *)
Lemma argmin_least (vals : list float) :
  vals <> [] -> forallb number vals = true ->
  exists i v,
    Np.argmin vals = Ok i /\ nth_error vals i = Some v /\
    (forall j x, nth_error vals j = Some x -> (v <=? x)%float = true) /\
    (forall j x, j < i -> nth_error vals j = Some x -> (v <? x)%float = true).
Proof.
  destruct vals as [|mp rest]; [congruence|]. intros _ Hnum.
  assert (Hmp : is_nan mp = false).
  { simpl in Hnum. apply andb_prop in Hnum as [H _]. apply number_spec, H. }
  simpl Np.argmin. rewrite Hmp.
  destruct (argmin_loop_least rest [mp] mp 0) as (v & Hv & Hle & Hlt).
  - reflexivity.
  - exact Hnum.
  - intros [|[|j]] x; simpl; intros [= <-]. apply leb_refl, Hmp.
  - intros j x Hj. lia.
  - exists (Np.argmin_loop rest 1 mp 0), v. auto.
Qed.

(** A NaN wins the scan: [argmin] returns the index of the first one. *)
Lemma argmin_loop_nan (pre : list float) :
  forall x post i mp k,
    forallb number pre = true -> is_nan x = true ->
    Np.argmin_loop (pre ++ x :: post) i mp k = i + length pre.
Proof.
  induction pre as [|y pre IH]; intros x post i mp k Hpre Hx; simpl.
  - rewrite (leb_nan_r mp x Hx), Hx. simpl. lia.
  - simpl in Hpre. apply andb_prop in Hpre as [Hy Hpre].
    apply number_spec in Hy. rewrite Hy.
    destruct (negb (mp <=? y)%float); rewrite IH by assumption; lia.
Qed.

Lemma argmin_first_nan (pre : list float) (x : float) (post : list float) :
  forallb number pre = true -> is_nan x = true ->
  Np.argmin (pre ++ x :: post) = Ok (length pre).
Proof.
  intros Hpre Hx. destruct pre as [|y pre]; simpl.
  - rewrite Hx. reflexivity.
  - simpl in Hpre. apply andb_prop in Hpre as [Hy Hpre].
    apply number_spec in Hy. rewrite Hy.
    rewrite argmin_loop_nan by assumption. reflexivity.
Qed.

End ArgminFacts.

(** ** The grid of [np.arange] *)

Module ArangeFacts.
Import SF F64Facts RoundFacts DiffFacts.
Open Scope Z_scope.












Open Scope nat_scope.



End ArangeFacts.

(** ** The selection of the root on a grid *)

Import SF F64Facts RoundFacts DiffFacts ArgminFacts ArangeFacts.
Open Scope nat_scope.

Lemma abs_table_length (f : float -> float) (grid : list float) :
  length (abs_table f grid) = length grid.
Proof. unfold abs_table, Np.absolute. rewrite !length_map. reflexivity. Qed.

Lemma abs_table_nth (f : float -> float) (grid : list float) (j : nat) :
  nth_error (abs_table f grid) j =
  option_map (fun x => abs (f x)) (nth_error grid j).
Proof.
  unfold abs_table, Np.absolute. rewrite !nth_error_map.
  destruct (nth_error grid j); reflexivity.
Qed.

Lemma abs_table_numbers (f : float -> float) (grid : list float) :
  forallb (fun x => number (f x)) grid = true ->
  forallb number (abs_table f grid) = true.
Proof.
  unfold abs_table, Np.absolute. rewrite !forallb_forall. intros H v Hv.
  apply in_map_iff in Hv as (w & <- & Hw).
  apply in_map_iff in Hw as (x & <- & Hx).
  unfold number. rewrite is_nan_abs. apply (H x Hx).
Qed.

(** Whatever the values, the selection on a non-empty grid returns the grid
    point at the index [argmin] gives, with the value of [f] there. *)
Lemma select_root_ok (f : float -> float) (grid : list float) :
  grid <> [] ->
  exists root index,
    Np.argmin (abs_table f grid) = Ok index /\
    nth_error grid index = Some root /\
    select_root f grid = Ok (root, f root, index).
Proof.
  intros Hne.
  destruct (argmin_nonempty (abs_table f grid)) as [i Hi].
  { intros E. apply Hne. apply length_zero_iff_nil.
    rewrite <- (abs_table_length f), E. reflexivity. }
  pose proof (argmin_bound _ _ Hi) as Hb. rewrite abs_table_length in Hb.
  destruct (nth_error grid i) as [r|] eqn:Hr.
  - exists r, i. repeat split; trivial.
    unfold select_root. fold (abs_table f grid). rewrite Hi. simpl.
    unfold Np.getitem. rewrite Hr. reflexivity.
  - apply nth_error_None in Hr. lia.
Qed.

(** On a grid where [f] is never NaN the selection returns the first grid
    point of least magnitude. *)
Lemma select_root_least (f : float -> float) (grid : list float) :
  grid <> [] ->
  forallb (fun x => number (f x)) grid = true ->
  exists root index,
    select_root f grid = Ok (root, f root, index) /\
    nth_error grid index = Some root /\
    (forall j x, nth_error grid j = Some x ->
                 (abs (f root) <=? abs (f x))%float = true) /\
    (forall j x, j < index -> nth_error grid j = Some x ->
                 (abs (f root) <? abs (f x))%float = true).
Proof.
  intros Hne Hnum.
  destruct (select_root_ok f grid Hne) as (root & index & Hi & Hr & Hsel).
  destruct (argmin_least (abs_table f grid)) as (i & v & Hi' & Hv & Hle & Hlt).
  { intros E. apply Hne, length_zero_iff_nil.
    rewrite <- (abs_table_length f), E. reflexivity. }
  { apply abs_table_numbers, Hnum. }
  rewrite Hi in Hi'. injection Hi' as <-.
  rewrite abs_table_nth, Hr in Hv. simpl in Hv. injection Hv as <-.
  exists root, index. repeat split; trivial.
  - intros j x Hj. apply (Hle j). rewrite abs_table_nth, Hj. reflexivity.
  - intros j x Hlt' Hj. apply (Hlt j); trivial.
    rewrite abs_table_nth, Hj. reflexivity.
Qed.

(** ** The returned point has the least magnitude *)

(** C1 (as amended): for every function [f] and every non-empty grid on
    which [f] is never NaN, the selection returns [(root, residual, index)]
    where [index] is an index of the least entry of the table of magnitudes,
    [root] is the grid point at [index], [residual] is [f root], and the
    magnitude at [root] is not above the magnitude at any grid point. *)
Theorem select_root_minimal_residual (f : float -> float) (grid : list float) :
  grid <> [] ->
  forallb (fun x => number (f x)) grid = true ->
  exists root residual index,
    select_root f grid = Ok (root, residual, index) /\
    nth_error grid index = Some root /\
    residual = f root /\
    is_least (abs_table f grid) index = true /\
    (forall j x, nth_error grid j = Some x ->
                 (abs (f root) <=? abs (f x))%float = true).
Proof.
  intros Hne Hnum.
  destruct (select_root_least f grid Hne Hnum)
    as (root & index & Hsel & Hr & Hle & _).
  exists root, (f root), index. repeat split; trivial.
  apply is_least_spec. exists (abs (f root)). split.
  - rewrite abs_table_nth, Hr. reflexivity.
  - intros j v Hj. rewrite abs_table_nth in Hj.
    destruct (nth_error grid j) as [x|] eqn:E; simpl in Hj; [|discriminate].
    injection Hj as <-. apply (Hle j x E).
Qed.

Lemma select_root_minimal_residual_witness :
  [-1; 0; 2]%float <> [] /\
  forallb (fun x => number (sq_minus_one x)) [-1; 0; 2]%float = true /\
  exists root residual index,
    select_root sq_minus_one [-1; 0; 2]%float = Ok (root, residual, index) /\
    nth_error [-1; 0; 2]%float index = Some root /\
    residual = sq_minus_one root /\
    is_least (abs_table sq_minus_one [-1; 0; 2]%float) index = true /\
    (forall j x, nth_error [-1; 0; 2]%float j = Some x ->
                 (abs (sq_minus_one root) <=? abs (sq_minus_one x))%float
                 = true).
Proof.
  split; [discriminate|]. split; [reflexivity|].
  apply (select_root_minimal_residual sq_minus_one [-1; 0; 2]%float);
    [discriminate | reflexivity].
Defined.

(** C1 (as stated) fails where [f] is NaN: on the grid [[-1; 0]] the square
    root is NaN at [-1] and [0] at [0]; the script's selection returns the
    point [-1] with a NaN residual, which is not below the magnitude [0]
    found at index 1. *)
Lemma select_root_nan_not_minimal :
  select_root sqrt [-1; 0]%float = Ok ((-1)%float, nan, 0) /\
  (abs (sqrt (-1)) <=? abs (sqrt 0))%float = false /\
  ~ (exists root residual index,
        select_root sqrt [-1; 0]%float = Ok (root, residual, index) /\
        nth_error [-1; 0]%float index = Some root /\
        residual = sqrt root /\
        (forall j x, nth_error [-1; 0]%float j = Some x ->
                     (abs (sqrt root) <=? abs (sqrt x))%float = true)).
Proof.
  split; [reflexivity|]. split; [reflexivity|].
  intros (root & residual & index & Hsel & _ & _ & Hmin).
  vm_compute in Hsel. injection Hsel as <- <- <-.
  specialize (Hmin 1 0%float eq_refl). vm_compute in Hmin. discriminate.
Qed.

(** ** Ties go to the lowest index *)



(** ** Values that are not numbers *)

(** C5 (as amended): the selection never fails on a non-empty grid and
    excludes no value: when [f] is NaN somewhere on the grid, it returns the
    first grid point at which [f] is NaN, with that NaN as the residual,
    whether or not [f] is a number elsewhere. *)
Theorem select_root_first_nan (f : float -> float) (grid : list float) :
  grid <> [] ->
  (exists root residual index,
      select_root f grid = Ok (root, residual, index)) /\
  (forall pre x post,
      grid = pre ++ x :: post ->
      forallb (fun y => number (f y)) pre = true ->
      is_nan (f x) = true ->
      select_root f grid = Ok (x, f x, length pre)).
Proof.
  intros Hne. split.
  - destruct (select_root_ok f grid Hne) as (root & index & _ & _ & Hsel).
    exists root, (f root), index. exact Hsel.
  - intros pre x post -> Hpre Hx.
    destruct (select_root_ok f _ Hne) as (root & index & Hi & Hr & Hsel).
    assert (E : abs_table f (pre ++ x :: post)
                = abs_table f pre ++ abs (f x) :: abs_table f post).
    { unfold abs_table, Np.absolute. rewrite !map_app. reflexivity. }
    rewrite E, argmin_first_nan in Hi.
    + injection Hi as <-. rewrite abs_table_length in Hr, Hsel.
      rewrite nth_error_app2, Nat.sub_diag in Hr by lia.
      injection Hr as <-. exact Hsel.
    + apply abs_table_numbers, Hpre.
    + rewrite is_nan_abs. exact Hx.
Qed.

Lemma select_root_first_nan_witness :
  [4; -1; 0]%float <> [] /\
  (exists root residual index,
      select_root sqrt [4; -1; 0]%float = Ok (root, residual, index)) /\
  select_root sqrt [4; -1; 0]%float = Ok ((-1)%float, sqrt (-1), 1).
Proof.
  split; [discriminate|].
  destruct (select_root_first_nan sqrt [4; -1; 0]%float) as [H1 H2];
    [discriminate|].
  split; [exact H1|].
  apply (H2 [4]%float (-1)%float [0]%float); reflexivity.
Defined.

(** C5 (as stated) fails: where [f] is NaN at every grid point the script's
    selection returns the first point instead of failing, and where [f] is
    NaN at the first point only, that point is returned although [f] is a
    number, and zero, at the second. *)
Lemma non_finite_values_counterexample :
  forallb (fun x => is_nan (sqrt x)) [-2; -1]%float = true /\
  select_root sqrt [-2; -1]%float = Ok ((-2)%float, nan, 0) /\
  is_nan (sqrt (-1)) = true /\ sqrt 0 = 0%float /\
  select_root sqrt [-1; 0]%float = Ok ((-1)%float, nan, 0).
Proof. repeat split; reflexivity. Qed.

(** ** The index stays inside the grid *)

(** C10: for a non-empty table of values as long as the grid, [argmin] of
    the magnitudes returns an index below the length of the grid, so the
    indexing of the grid that follows succeeds; on the empty table [argmin]
    has no result. *)
Theorem argmin_index_in_bounds (x_grid f_grid : list float) :
  f_grid <> [] ->
  length f_grid = length x_grid ->
  (exists i x,
      Np.argmin (Np.absolute f_grid) = Ok i /\
      0 <= i < length x_grid /\
      Np.getitem x_grid i = Ok x) /\
  Np.argmin (Np.absolute []) = Raise ValueError.
Proof.
  intros Hne Hlen. split; [|reflexivity].
  destruct (argmin_nonempty (Np.absolute f_grid)) as [i Hi].
  { destruct f_grid; [congruence | discriminate]. }
  pose proof (argmin_bound _ _ Hi) as Hb.
  unfold Np.absolute in Hb. rewrite length_map, Hlen in Hb.
  destruct (nth_error x_grid i) as [x|] eqn:Hx.
  - exists i, x. repeat split; trivial; try lia.
    unfold Np.getitem. rewrite Hx. reflexivity.
  - apply nth_error_None in Hx. lia.
Qed.

Lemma argmin_index_in_bounds_witness :
  [3; -0.5; 2]%float <> [] /\
  length [3; -0.5; 2]%float = length [10; 20; 30]%float /\
  (exists i x,
      Np.argmin (Np.absolute [3; -0.5; 2]%float) = Ok i /\
      0 <= i < length [10; 20; 30]%float /\
      Np.getitem [10; 20; 30]%float i = Ok x) /\
  Np.argmin (Np.absolute []) = Raise ValueError.
Proof.
  split; [discriminate|]. split; [reflexivity|].
  apply (argmin_index_in_bounds [10; 20; 30]%float [3; -0.5; 2]%float);
    [discriminate | reflexivity].
Defined.

(** ** The one-line form and the stepwise form *)

(** C9: on module variables where [x_grid] and [f_grid] are bound, the single
    statement of line 126 binds [x_root_2] to what the three statements of
    lines 111-113 bind [x_root_1] to, or both raise the same exception; the
    common value is the grid element at [argmin] of the magnitudes.  The
    lengths of the grid and the table play no part. *)
Theorem one_line_equals_stepwise (g : Script.globals) (xs fs : list float) :
  Script.x_grid g = Some xs ->
  Script.f_grid g = Some fs ->
  result_map Script.x_root_1 (Script.stepwise g)
    = result_map Script.x_root_2 (Script.assign_x_root_2 g) /\
  result_map Script.x_root_2 (Script.assign_x_root_2 g)
    = result_map Some (i <- Np.argmin (Np.absolute fs) ;; Np.getitem xs i).
Proof.
  intros Hx Hf.
  unfold Script.stepwise, Script.seq_stmt, Script.assign_abs_f_grid,
    Script.assign_x_root_index, Script.assign_x_root_1,
    Script.assign_x_root_2.
  rewrite Hx, Hf. simpl.
  destruct (Np.argmin (Np.absolute fs)) as [i|e]; simpl.
  - destruct (Np.getitem xs i); simpl; auto.
  - auto.
Qed.

Lemma one_line_equals_stepwise_witness :
  Script.x_grid (Script.with_tables [10; 20; 30] [3; -0.5; 2])%float
    = Some [10; 20; 30]%float /\
  Script.f_grid (Script.with_tables [10; 20; 30] [3; -0.5; 2])%float
    = Some [3; -0.5; 2]%float /\
  result_map Script.x_root_1
    (Script.stepwise (Script.with_tables [10; 20; 30] [3; -0.5; 2])%float)
  = result_map Script.x_root_2
      (Script.assign_x_root_2
         (Script.with_tables [10; 20; 30] [3; -0.5; 2])%float) /\
  result_map Script.x_root_2
    (Script.assign_x_root_2
       (Script.with_tables [10; 20; 30] [3; -0.5; 2])%float)
  = Ok (Some 20%float).
Proof.
  split; [reflexivity|]. split; [reflexivity|].
  destruct (one_line_equals_stepwise
              (Script.with_tables [10; 20; 30] [3; -0.5; 2])%float
              [10; 20; 30]%float [3; -0.5; 2]%float)
    as [H1 H2]; [reflexivity | reflexivity |].
  split; [exact H1|]. rewrite H2. reflexivity.
Defined.

(** ** Determinism *)




(** ** The script's quadratic *)

(** C6: for [f(x) = 0.25*x**2 + x - 1] over [np.arange(-10, 5, 0.01)] the
    search returns the grid point of index 1083, within one step of the root
    [0.828] of the quadratic, with a residual of magnitude below [0.003] that
    is the least magnitude over all 1500 grid points; it is the value the
    script binds to [x_root_1] and prints. *)
Theorem quadratic_grid_root :
  exists root residual grid,
    find_root_by_grid (fun x => quad_fn x a b c) (-10) 5 0.01
      = Ok (root, residual, 1083) /\
    root = 0.82999999999976914%float /\
    residual = 0.0022249999996732939%float /\
    ((abs (root - 0.828) <? 0.01)%float = true \/
     (abs (root - (-4.828)) <? 0.01)%float = true) /\
    (abs residual <? 0.003)%float = true /\
    Np.arange (-10) 5 0.01 = Ok grid /\
    length grid = 1500 /\
    forallb (fun x => abs residual <=? abs (quad_fn x a b c))%float grid
      = true /\
    result_map (fun g => (Script.x_root_1 g, Script.stdout g))
               (Script.first_search Script.initial)
      = Ok (Some root, [root; residual]).
Proof.
  destruct (Np.arange (-10) 5 0.01) as [grid|e] eqn:Hg;
    [|vm_compute in Hg; discriminate].
  exists 0.82999999999976914%float, 0.0022249999996732939%float, grid.
  split; [vm_compute; reflexivity|].
  split; [reflexivity|]. split; [reflexivity|].
  split; [left; vm_compute; reflexivity|].
  split; [vm_compute; reflexivity|].
  split; [reflexivity|].
  vm_compute in Hg. injection Hg as <-.
  split; [vm_compute; reflexivity|].
  split; vm_compute; reflexivity.
Qed.

(** The statements of the first search compute the grid search of
    [quad_fn] with the script's coefficients, whatever the bounds and the
    step of the grid. *)
Lemma first_search_refines (start stop step : float) :
  result_map Script.x_root_1
    (Script.seq_stmt
       (Script.seq_stmt (Script.assign_x_grid start stop step)
                        Script.assign_f_grid)
       Script.stepwise Script.initial)
  = result_map (fun r => Some (fst (fst r)))
      (find_root_by_grid (fun x => quad_fn x a b c) start stop step).
Proof.
  unfold find_root_by_grid, select_root, Script.seq_stmt, Script.stepwise,
    Script.seq_stmt, Script.assign_x_grid, Script.assign_f_grid,
    Script.assign_abs_f_grid, Script.assign_x_root_index,
    Script.assign_x_root_1.
  destruct (Np.arange start stop step) as [grid|e]; simpl; trivial.
  destruct (Np.argmin _) as [i|e]; simpl; trivial.
  destruct (Np.getitem grid i); reflexivity.
Qed.

(** What lines 88-129 leave in [x_root_1] and [x_root_2], and print. *)
Lemma script_output :
  result_map (fun g => (Script.x_root_1 g, Script.x_root_2 g, Script.stdout g))
             Script.run
  = Ok (Some 0.82999999999976914%float, Some 0.82840000000000003%float,
        [0.82999999999976914; 0.0022249999996732939;
         0.82840000000000003; -3.8360000000015049e-05]%float).
Proof. vm_compute. reflexivity. Qed.

(** Every element of the two grids of the script lies in [[start, stop)]. *)
Lemma script_grids_in_range :
  result_map (forallb (fun x => (-10 <=? x) && (x <? 5))%float)
             (Np.arange (-10) 5 0.01) = Ok true /\
  result_map (forallb (fun x => (0 <=? x) && (x <? 1))%float)
             (Np.arange 0 1 0.0001) = Ok true.
Proof. split; vm_compute; reflexivity. Qed.

(** ** A function without a root *)





(** ** The search from the bounds *)







(** ** Length and elements of the grid *)




(** ** Inputs that make the search fail *)




(** * Further properties of the script *)

(** ** Operations that are exact *)

Module ExactFacts.
Import SF F64Facts RoundFacts.
Open Scope float_scope.

Lemma is_finite_spec (x : float) : is_finite x = SFfinite (Prim2SF x).
Proof.
  unfold is_finite, is_infinity. rewrite is_nan_spec, eqb_spec, abs_spec.
  destruct (Prim2SF x) as [s|s| |s m e]; reflexivity.
Qed.


Lemma abs_opp (x : float) : abs (- x) = abs x.
Proof.
  apply Prim2SF_inj. rewrite !abs_spec, opp_spec.
  destruct (Prim2SF x); reflexivity.
Qed.

Lemma mul_opp_opp (x : float) : (- x) * (- x) = x * x.
Proof.
  apply Prim2SF_inj. rewrite !mul_spec, opp_spec.
  destruct (Prim2SF x) as [s|s| |s m e]; simpl; trivial;
    destruct s; reflexivity.
Qed.

Lemma sub_zero_r (x : float) : x - 0 = x.
Proof.
  apply Prim2SF_inj. rewrite sub_spec, Prim2SF_zero.
  destruct (Prim2SF x) as [[]|[]| |s m e]; reflexivity.
Qed.

Lemma sub_self (x : float) : is_finite x = true -> x - x = 0.
Proof.
  rewrite is_finite_spec. intros H.
  apply Prim2SF_inj. rewrite sub_spec, Prim2SF_zero.
  destruct (Prim2SF x) as [[]|[]| |s m e]; try discriminate; try reflexivity.
  unfold SF64sub, SFsub. cbv zeta. rewrite Z.sub_diag. reflexivity.
Qed.

(** Zero among magnitudes. *)
Lemma abs_leb_zero (r z : float) :
  F64.is_zero z = true -> (abs r <=? abs z) = true -> F64.is_zero r = true.
Proof.
  rewrite !is_zero_spec, leb_spec, !abs_spec.
  destruct (Prim2SF z) as [sz|sz| |sz mz ez]; try discriminate. intros _.
  destruct (Prim2SF r) as [s|s| |s m e]; simpl; trivial; discriminate.
Qed.

Lemma subgrid_in (coarse fine : list float) (x : float) :
  subgrid coarse fine = true -> In x coarse -> In x fine.
Proof.
  unfold subgrid. rewrite forallb_forall. intros H Hx.
  apply H, existsb_exists in Hx as (y & Hy & E).
  apply Leibniz.eqb_spec in E. subst. exact Hy.
Qed.

Lemma abs_ltb_zero (r x : float) :
  F64.is_zero r = true -> (abs r <? abs x) = true -> F64.is_zero x = false.
Proof.
  rewrite !is_zero_spec, ltb_spec, !abs_spec.
  destruct (Prim2SF r) as [sz|sz| |sz mz ez]; try discriminate. intros _.
  destruct (Prim2SF x) as [s|s| |s m e]; simpl; trivial; discriminate.
Qed.



End ExactFacts.

(** ** The quadratic of the script at finite doubles *)

Module QuadFacts.
Import SF F64Facts RoundFacts ArgminFacts ExactFacts.
Open Scope Z_scope.




Open Scope float_scope.







End QuadFacts.

(** ** The loop that fills the table *)

Module LoopFacts.
Import SingleVar.
Open Scope nat_scope.

Section WithMath.

Variables math_log math_exp : float -> result float.

(** A call of [f] prints its line when line 154 gives a value, and
    nothing when line 154 raises. *)
Lemma f_ok (x v : float) (out : list line) :
  out_value math_log math_exp x = Ok v ->
  f math_log math_exp x out = (Ok v, out ++ [(x, v)]).
Proof.
  intros H. unfold f, io_bind, lift, print, ret. rewrite H. reflexivity.
Qed.

Lemma f_raise (x : float) (e : exn) (out : list line) :
  out_value math_log math_exp x = Raise e ->
  f math_log math_exp x out = (Raise e, out).
Proof. intros H. unfold f, io_bind, lift. rewrite H. reflexivity. Qed.

Lemma getitem_app (pre : list float) (x : float) (post : list float) :
  Np.getitem (pre ++ x :: post) (length pre) = Ok x.
Proof.
  unfold Np.getitem. rewrite nth_error_app2, Nat.sub_diag by lia. reflexivity.
Qed.

Lemma setitem_app (done : list float) (t : float) (tail : list float)
      (v : float) :
  setitem (done ++ t :: tail) (length done) v = Ok (done ++ v :: tail).
Proof.
  unfold setitem.
  replace (length done <? length (done ++ t :: tail)) with true
    by (symmetry; apply Nat.ltb_lt; rewrite length_app; simpl; lia).
  f_equal. induction done as [|d done IH]; simpl; [reflexivity|].
  f_equal. exact IH.
Qed.

(** One turn of the loop, at the index [length pre]. *)
Lemma fill_loop_step (range : list nat) (pre : list float) (x : float)
      (post done : list float) (t : float) (tail : list float)
      (out : list line) :
  length done = length pre ->
  fill_loop math_log math_exp (length pre :: range)
            (pre ++ x :: post) (done ++ t :: tail) out =
  match out_value math_log math_exp x with
  | Ok v => fill_loop math_log math_exp range (pre ++ x :: post)
                      (done ++ v :: tail) (out ++ [(x, v)])
  | Raise e => (Raise e, out)
  end.
Proof.
  intros Hl. cbn [fill_loop]. unfold io_bind at 1. unfold lift at 1.
  rewrite getitem_app. unfold io_bind at 1.
  destruct (out_value math_log math_exp x) as [v|e] eqn:Hv.
  - rewrite (f_ok x v out Hv). unfold io_bind at 1. unfold lift at 1.
    rewrite <- Hl, setitem_app. reflexivity.
  - rewrite (f_raise x e out Hv). reflexivity.
Qed.

(** The invariant of the loop: once the indices below [length pre] are
    done, the table holds the values of [f] there and its old entries
    from there on, and one line has been printed for each. *)
Lemma fill_loop_ok (rest : list float) :
  forall (pre done tail vals : list float) (out : list line),
    length done = length pre -> length tail = length rest ->
    Forall2 (fun x v => out_value math_log math_exp x = Ok v) rest vals ->
    fill_loop math_log math_exp (seq (length pre) (length rest))
              (pre ++ rest) (done ++ tail) out
    = (Ok (done ++ vals), out ++ combine rest vals).
Proof.
  induction rest as [|x rest IH]; intros pre done tail vals out Hd Ht Hv.
  - inversion Hv; subst. destruct tail; [|discriminate].
    simpl. rewrite !app_nil_r. reflexivity.
  - inversion Hv as [|x' v rest' vals' Hx Hrest]; subst.
    destruct tail as [|t tail]; [discriminate|].
    cbn [length seq]. rewrite (fill_loop_step _ pre x rest done t tail out Hd).
    rewrite Hx.
    replace (S (length pre)) with (length (pre ++ [x]))
      by (rewrite length_app; simpl; lia).
    replace (pre ++ x :: rest) with ((pre ++ [x]) ++ rest)
      by (rewrite <- app_assoc; reflexivity).
    replace (done ++ v :: tail) with ((done ++ [v]) ++ tail)
      by (rewrite <- app_assoc; reflexivity).
    rewrite (IH (pre ++ [x]) (done ++ [v]) tail vals').
    + rewrite <- !app_assoc. reflexivity.
    + rewrite !length_app. simpl. lia.
    + simpl in Ht. lia.
    + exact Hrest.
Qed.

Lemma fill_loop_raise (good : list float) :
  forall (pre done tail vals : list float) (x : float) (post : list float)
         (e : exn) (out : list line),
    length done = length pre ->
    length tail = length (good ++ x :: post) ->
    Forall2 (fun x v => out_value math_log math_exp x = Ok v) good vals ->
    out_value math_log math_exp x = Raise e ->
    fill_loop math_log math_exp
              (seq (length pre) (length (good ++ x :: post)))
              (pre ++ good ++ x :: post) (done ++ tail) out
    = (Raise e, out ++ combine good vals).
Proof.
  induction good as [|y good IH];
    intros pre done tail vals x post e out Hd Ht Hv Hx.
  - inversion Hv; subst. destruct tail as [|t tail]; [discriminate|].
    cbn [app length seq].
    rewrite (fill_loop_step _ pre x post done t tail out Hd), Hx.
    simpl. rewrite app_nil_r. reflexivity.
  - inversion Hv as [|y' v good' vals' Hy Hgood]; subst.
    destruct tail as [|t tail]; [discriminate|].
    cbn [app length seq].
    rewrite (fill_loop_step _ pre y (good ++ x :: post) done t tail out Hd).
    rewrite Hy.
    replace (S (length pre)) with (length (pre ++ [y]))
      by (rewrite length_app; simpl; lia).
    replace (pre ++ y :: good ++ x :: post)
      with ((pre ++ [y]) ++ good ++ x :: post)
      by (rewrite <- app_assoc; reflexivity).
    replace (done ++ v :: tail) with ((done ++ [v]) ++ tail)
      by (rewrite <- app_assoc; reflexivity).
    rewrite (IH (pre ++ [y]) (done ++ [v]) tail vals' x post e).
    + rewrite <- !app_assoc. reflexivity.
    + rewrite !length_app. simpl. lia.
    + simpl in Ht. lia.
    + exact Hgood.
    + exact Hx.
Qed.

End WithMath.

End LoopFacts.

Import ExactFacts QuadFacts LoopFacts.
Open Scope nat_scope.

(** ** The grid search on the quadratic and on exact roots *)



(** X2: when [f] is never NaN on the grid and is zero at some grid point,
    the selection returns an exact root, the first grid point at which
    [f] is zero. *)
Theorem select_root_exact_root (f : float -> float) (grid : list float) :
  forallb (fun x => number (f x)) grid = true ->
  existsb (fun x => F64.is_zero (f x)) grid = true ->
  exists root index,
    select_root f grid = Ok (root, f root, index) /\
    nth_error grid index = Some root /\
    F64.is_zero (f root) = true /\
    (forall j x, j < index -> nth_error grid j = Some x ->
                 F64.is_zero (f x) = false).
Proof.
  intros Hnum Hex.
  apply existsb_exists in Hex as (z & Hin & Hz).
  assert (Hne : grid <> []) by (intros ->; destruct Hin).
  destruct (select_root_least f grid Hne Hnum)
    as (root & index & Hsel & Hr & Hle & Hlt).
  apply In_nth_error in Hin as [k Hk].
  assert (Hroot : F64.is_zero (f root) = true)
    by (apply (abs_leb_zero _ (f z) Hz), (Hle k z Hk)).
  exists root, index. repeat split; trivial.
  intros j x Hj Hx. apply (abs_ltb_zero (f root)); trivial.
  apply (Hlt j x Hj Hx).
Qed.

Lemma select_root_exact_root_witness :
  forallb (fun x => number (sq_minus_one x)) [-3; 1; 2; -1]%float = true /\
  existsb (fun x => F64.is_zero (sq_minus_one x)) [-3; 1; 2; -1]%float = true /\
  exists root index,
    select_root sq_minus_one [-3; 1; 2; -1]%float
      = Ok (root, sq_minus_one root, index) /\
    nth_error [-3; 1; 2; -1]%float index = Some root /\
    F64.is_zero (sq_minus_one root) = true /\
    (forall j x, j < index -> nth_error [-3; 1; 2; -1]%float j = Some x ->
                 F64.is_zero (sq_minus_one x) = false).
Proof.
  split; [reflexivity|]. split; [reflexivity|].
  apply (select_root_exact_root sq_minus_one [-3; 1; 2; -1]%float);
    reflexivity.
Defined.

(** X3: the selection does not see the sign of the function: for [-f] it
    returns the grid point and the index it returns for [f], with the
    opposite residual, and fails where it fails for [f]. *)
Theorem select_root_opp (f : float -> float) (grid : list float) :
  select_root (fun x => (- f x)%float) grid =
  result_map (fun r => (fst (fst r), (- snd (fst r))%float, snd r))
             (select_root f grid).
Proof.
  unfold select_root.
  replace (Np.absolute (map (fun x => (- f x)%float) grid))
    with (Np.absolute (map f grid)).
  - destruct (Np.argmin _) as [i|e]; simpl; trivial.
    destruct (Np.getitem grid i); reflexivity.
  - unfold Np.absolute. rewrite !map_map. apply map_ext.
    intros x. symmetry. apply abs_opp.
Qed.

(** X4: adding grid points never makes the residual worse: when every
    point of a non-empty grid is a point of a finer grid on which [f] is
    never NaN, the magnitude of [f] at the point selected on the finer
    grid is not above its magnitude at the point selected on the coarser
    one. *)
Theorem select_root_refines (f : float -> float) (coarse fine : list float) :
  coarse <> [] ->
  subgrid coarse fine = true ->
  forallb (fun x => number (f x)) fine = true ->
  exists r1 i1 r2 i2,
    select_root f coarse = Ok (r1, f r1, i1) /\
    select_root f fine = Ok (r2, f r2, i2) /\
    (abs (f r2) <=? abs (f r1))%float = true.
Proof.
  intros Hne Hsub Hnum.
  destruct (select_root_ok f coarse Hne) as (r1 & i1 & _ & Hr1 & Hsel1).
  assert (Hin : In r1 fine)
    by (apply (subgrid_in coarse); [exact Hsub|apply (nth_error_In _ _ Hr1)]).
  assert (Hne2 : fine <> []) by (intros ->; destruct Hin).
  destruct (select_root_least f fine Hne2 Hnum)
    as (r2 & i2 & Hsel2 & _ & Hle & _).
  apply In_nth_error in Hin as [k Hk].
  exists r1, i1, r2, i2. repeat split; trivial. apply (Hle k r1 Hk).
Qed.

Lemma select_root_refines_witness :
  [0; 2]%float <> [] /\
  subgrid [0; 2]%float [0; 0.5; 1; 1.5; 2]%float = true /\
  forallb (fun x => number (sq_minus_one x)) [0; 0.5; 1; 1.5; 2]%float = true /\
  exists r1 i1 r2 i2,
    select_root sq_minus_one [0; 2]%float = Ok (r1, sq_minus_one r1, i1) /\
    select_root sq_minus_one [0; 0.5; 1; 1.5; 2]%float
      = Ok (r2, sq_minus_one r2, i2) /\
    (abs (sq_minus_one r2) <=? abs (sq_minus_one r1))%float = true.
Proof.
  split; [discriminate|]. split; [reflexivity|]. split; [reflexivity|].
  apply (select_root_refines sq_minus_one [0; 2]%float
                             [0; 0.5; 1; 1.5; 2]%float);
    [discriminate|reflexivity|reflexivity].
Defined.

(** X5: the second search, lines 122-129, reads nothing the first search
    has bound.  From any state of the module variables it fails or
    succeeds as from the initial one, binds [x_grid], [f_grid] and
    [x_root_2] to the same values, leaves [abs_f_grid], [x_root_index] and
    [x_root_1] as they were, and appends the same two numbers to the
    output. *)
Theorem second_search_independent (g : Script.globals) :
  result_map
    (fun g' => (Script.x_grid g', Script.f_grid g', Script.x_root_2 g',
                Script.abs_f_grid g', Script.x_root_index g',
                Script.x_root_1 g', Script.stdout g'))
    (Script.second_search g) =
  result_map
    (fun g0 => (Script.x_grid g0, Script.f_grid g0, Script.x_root_2 g0,
                Script.abs_f_grid g, Script.x_root_index g,
                Script.x_root_1 g, Script.stdout g ++ Script.stdout g0))
    (Script.second_search Script.initial).
Proof.
  unfold Script.second_search, Script.seq_stmt, Script.assign_x_grid.
  destruct (Np.arange 0 1 0.0001) as [xs|e]; [|reflexivity].
  cbn [bind Script.assign_f_grid Script.x_grid Script.load].
  unfold Script.assign_x_root_2.
  cbn [bind Script.x_grid Script.f_grid Script.load].
  destruct (Np.argmin _) as [i|e]; [|reflexivity].
  cbn [bind]. destruct (Np.getitem xs i) as [r|e]; reflexivity.
Qed.



(** ** The table of the single-variable equation *)

(** X7: when line 154 gives a value at every grid point, the loop of lines
    164-166 returns the table of these values, in the order of the grid
    and of the grid's length, and [f] has printed one line for each grid
    point, in that order, after what was printed before. *)
Theorem plot_table_fills (math_log math_exp : float -> result float)
        (x_grid vals : list float) (out : list SingleVar.line) :
  Forall2 (fun x v => SingleVar.out_value math_log math_exp x = Ok v)
          x_grid vals ->
  SingleVar.plot_table math_log math_exp x_grid out
  = (Ok vals, out ++ combine x_grid vals).
Proof.
  intros H. unfold SingleVar.plot_table.
  apply (fill_loop_ok math_log math_exp x_grid [] [] _ vals out); trivial.
  apply length_map.
Qed.

Lemma plot_table_fills_witness :
  Forall2 (fun x v => SingleVar.out_value tangent_log tangent_exp x = Ok v)
          [1; 2]%float [0; 2]%float /\
  SingleVar.plot_table tangent_log tangent_exp [1; 2]%float []
  = (Ok [0; 2]%float, [] ++ combine [1; 2]%float [0; 2]%float).
Proof.
  split.
  - constructor; [reflexivity|]. constructor; [reflexivity|]. constructor.
  - apply (plot_table_fills tangent_log tangent_exp [1; 2]%float [0; 2]%float).
    constructor; [reflexivity|]. constructor; [reflexivity|]. constructor.
Defined.

(** X8: when line 154 raises at a grid point and gives a value at every
    point before it, the loop of lines 164-166 raises the same exception
    there, with one line printed for each point before it and none for
    that point or any later one. *)
Theorem plot_table_raises (math_log math_exp : float -> result float)
        (good vals : list float) (x : float) (post : list float) (e : exn)
        (out : list SingleVar.line) :
  Forall2 (fun x v => SingleVar.out_value math_log math_exp x = Ok v)
          good vals ->
  SingleVar.out_value math_log math_exp x = Raise e ->
  SingleVar.plot_table math_log math_exp (good ++ x :: post) out
  = (Raise e, out ++ combine good vals).
Proof.
  intros H Hx. unfold SingleVar.plot_table.
  apply (fill_loop_raise math_log math_exp good [] [] _ vals x post e out);
    trivial.
  apply length_map.
Qed.

Lemma plot_table_raises_witness :
  Forall2 (fun x v => SingleVar.out_value tangent_log tangent_exp x = Ok v)
          [1]%float [0]%float /\
  SingleVar.out_value tangent_log tangent_exp 0 = Raise ValueError /\
  SingleVar.plot_table tangent_log tangent_exp ([1]%float ++ 0%float :: [2]%float) []
  = (Raise ValueError, [] ++ combine [1]%float [0]%float).
Proof.
  split; [constructor; [reflexivity|constructor]|].
  split; [reflexivity|].
  apply (plot_table_raises tangent_log tangent_exp [1]%float [0]%float
                           0%float [2]%float ValueError []).
  - constructor; [reflexivity|constructor].
  - reflexivity.
Defined.

(** ** The systems of equations *)


(** X10: [my_eqns_22] is even in each unknown: changing the sign of the
    first or of the second unknown changes no residual, so that the roots
    of the system come in fours. *)
Theorem my_eqns_22_even (x0 x1 : float) (rest : list float) :
  my_eqns_22 ((- x0)%float :: x1 :: rest) = my_eqns_22 (x0 :: x1 :: rest) /\
  my_eqns_22 (x0 :: (- x1)%float :: rest) = my_eqns_22 (x0 :: x1 :: rest).
Proof.
  unfold my_eqns_22. simpl. rewrite !mul_opp_opp. split; reflexivity.
Qed.

(** X11: with the parameters [[12, 2, 1]] of line 285, [my_eqns_33_p] is
    [my_eqns_32]: the same residuals on every array of three unknowns or
    more, and the same [IndexError] on a shorter one. *)
Theorem my_eqns_33_p_specialises (x : list float) :
  my_eqns_33_p x [12; 2; 1]%float = my_eqns_32 x.
Proof.
  destruct x as [|x0 [|x1 [|x2 rest]]]; reflexivity.
Qed.


(** X13: the parameters of [my_eqns_33_p] enter as subtracted constants
    only: the residuals at the parameters [p0, p1, p2] are the residuals
    at the parameters [0, 0, 0] less [p0], [p1] and [p2] in turn, and the
    call fails for the ones where it fails for the others. *)
Theorem my_eqns_33_p_shift (x : list float) (p0 p1 p2 : float)
        (rest : list float) :
  my_eqns_33_p x (p0 :: p1 :: p2 :: rest) =
  result_map (fun G => componentwise_sub G [p0; p1; p2])
             (my_eqns_33_p x [0; 0; 0]%float).
Proof.
  destruct x as [|x0 [|x1 [|x2 xrest]]]; try reflexivity.
  unfold my_eqns_33_p, componentwise_sub. simpl.
  rewrite !sub_zero_r. reflexivity.
Qed.

(** X14: every point is an exact root of the system whose parameters are
    its own left-hand sides: when the residuals of [my_eqns_33_p] at [x]
    with the parameters [0, 0, 0] are the finite doubles [G1, G2, G3], its
    residuals at [x] with the parameters [G1, G2, G3] are all zero. *)
Theorem my_eqns_33_p_round_trip (x : list float) (G1 G2 G3 : float) :
  my_eqns_33_p x [0; 0; 0]%float = Ok [G1; G2; G3] ->
  forallb is_finite [G1; G2; G3] = true ->
  my_eqns_33_p x [G1; G2; G3] = Ok [0; 0; 0]%float.
Proof.
  intros H Hfin.
  destruct x as [|x0 [|x1 [|x2 xrest]]]; try discriminate.
  unfold my_eqns_33_p in *. simpl in *.
  rewrite !sub_zero_r in H. injection H as <- <- <-.
  apply andb_prop in Hfin as [H1 Hfin].
  apply andb_prop in Hfin as [H2 Hfin].
  apply andb_prop in Hfin as [H3 _].
  rewrite !sub_self by assumption. reflexivity.
Qed.

Lemma my_eqns_33_p_round_trip_witness :
  my_eqns_33_p [1; 1; 1]%float [0; 0; 0]%float = Ok [3; 1; 2]%float /\
  forallb is_finite [3; 1; 2]%float = true /\
  my_eqns_33_p [1; 1; 1]%float [3; 1; 2]%float = Ok [0; 0; 0]%float.
Proof.
  split; [reflexivity|]. split; [reflexivity|].
  apply (my_eqns_33_p_round_trip [1; 1; 1]%float 3 1 2); reflexivity.
Defined.
